(** * LiveAISuggestions: state management of the live suggestion panel

    A shallow embedding of [apps/frontend/components/LiveAISuggestions.tsx].
    The component keeps six pieces of React state and changes them only in
    the four transport callbacks ([onConnect], [onDisconnect], [onError],
    [onMessage]) and in two click handlers ([handleSuggestionAction],
    [clearAllSuggestions]).  Every handler is embedded as a command over
    the component state that also records the console output and timers it
    produces. *)

From Stdlib Require Import List ZArith String Ascii Bool Lia Floats DecimalString DecimalNat.
Import ListNotations.

Local Open Scope string_scope.
Local Open Scope Z_scope.
Local Open Scope list_scope.

(** ** Data model *)

(** [deliver_as: 'say' | 'internal_note' | 'immediate_response'] *)
Inductive DeliverAs : Type :=
  | say
  | internal_note
  | immediate_response.

(** [interface AISuggestion].  [confidence] is a JS number (a double);
    [reasoning] is optional. *)
Record AISuggestion : Type := mkSuggestion {
  text : string;
  offer_id : string;
  type : string;
  confidence : float;
  deliver_as : DeliverAs;
  reasoning : option string
}.

(** Values of the untyped slots ([currentCall] is [useState<any>(null)] and
    [message.callData] is stored into it as it comes).  The component never
    looks inside such a value, so an object is kept as its JSON text. *)
Inductive JsAny : Type :=
  | JsUndefined
  | JsNull
  | JsObject (json : string).

(** The inbound message, [{ type, suggestions?, callData?, transcript? }].
    An absent [suggestions] field is [None]; a present one is an array,
    possibly empty. *)
Record WebSocketMessage : Type := mkMessage {
  msg_type : string;
  msg_suggestions : option (list AISuggestion);
  callData : JsAny;
  transcript : option string
}.

(** ['connecting' | 'connected' | 'disconnected' | 'error'] *)
Inductive ConnectionStatus : Type :=
  | Connecting
  | Connected
  | Disconnected
  | Error.

(** The six [useState] cells of the component. *)
Record State : Type := mkState {
  suggestions : list AISuggestion;
  isConnected : bool;
  lastUpdate : string;
  currentCall : JsAny;
  isLiveStreaming : bool;
  connectionStatus : ConnectionStatus
}.

(** The values the [useState] calls start from. *)
Definition initialState : State :=
  {| suggestions := [];
     isConnected := false;
     lastUpdate := "";
     currentCall := JsNull;
     isLiveStreaming := false;
     connectionStatus := Connecting |}.

(** What a handler does besides changing state.  The component only ever
    writes to the console, arms the delayed scroll timer and, on cleanup,
    asks the transport to disconnect; [WsSend] is the transport's outbound
    channel, which no handler of this file uses. *)
Inductive Effect : Type :=
  | ConsoleLog (tag : string)
  | ConsoleError (tag : string)
  | SetTimeout (ms : Z)
  | WsDisconnect
  | WsSend (payload : string).

(** ** Commands over the component state *)

Definition Cmd : Type := State -> State * list Effect.

Definition skip : Cmd := fun st => (st, []).

Definition seq (c1 c2 : Cmd) : Cmd :=
  fun st =>
    let '(st1, out1) := c1 st in
    let '(st2, out2) := c2 st1 in
    (st2, out1 ++ out2).

Notation "c1 ;; c2" := (seq c1 c2) (at level 61, right associativity).

Definition emit (e : Effect) : Cmd := fun st => (st, [e]).

Definition console_log (tag : string) : Cmd := emit (ConsoleLog tag).
Definition console_error (tag : string) : Cmd := emit (ConsoleError tag).
Definition setTimeout (ms : Z) : Cmd := emit (SetTimeout ms).

(** The state setters.  [setSuggestions] takes the updater function, as
    every call site of the component does ([setSuggestions(prev => ...)]);
    [clearAllSuggestions] passes a constant. *)
Definition setSuggestions (f : list AISuggestion -> list AISuggestion) : Cmd :=
  fun st =>
    ({| suggestions := f (suggestions st);
        isConnected := isConnected st;
        lastUpdate := lastUpdate st;
        currentCall := currentCall st;
        isLiveStreaming := isLiveStreaming st;
        connectionStatus := connectionStatus st |}, []).

Definition setIsConnected (b : bool) : Cmd :=
  fun st =>
    ({| suggestions := suggestions st;
        isConnected := b;
        lastUpdate := lastUpdate st;
        currentCall := currentCall st;
        isLiveStreaming := isLiveStreaming st;
        connectionStatus := connectionStatus st |}, []).

Definition setLastUpdate (t : string) : Cmd :=
  fun st =>
    ({| suggestions := suggestions st;
        isConnected := isConnected st;
        lastUpdate := t;
        currentCall := currentCall st;
        isLiveStreaming := isLiveStreaming st;
        connectionStatus := connectionStatus st |}, []).

Definition setCurrentCall (c : JsAny) : Cmd :=
  fun st =>
    ({| suggestions := suggestions st;
        isConnected := isConnected st;
        lastUpdate := lastUpdate st;
        currentCall := c;
        isLiveStreaming := isLiveStreaming st;
        connectionStatus := connectionStatus st |}, []).

Definition setIsLiveStreaming (b : bool) : Cmd :=
  fun st =>
    ({| suggestions := suggestions st;
        isConnected := isConnected st;
        lastUpdate := lastUpdate st;
        currentCall := currentCall st;
        isLiveStreaming := b;
        connectionStatus := connectionStatus st |}, []).

Definition setConnectionStatus (s : ConnectionStatus) : Cmd :=
  fun st =>
    ({| suggestions := suggestions st;
        isConnected := isConnected st;
        lastUpdate := lastUpdate st;
        currentCall := currentCall st;
        isLiveStreaming := isLiveStreaming st;
        connectionStatus := s |}, []).

(** ** Array helpers *)

(** [Array.prototype.slice(start)] with the end left out: a negative
    [start] counts from the end of the array, and the resulting index is
    clamped to [0 .. length]. *)
Definition slice {A : Type} (start : Z) (l : list A) : list A :=
  let len := Z.of_nat (List.length l) in
  let k := if start <? 0 then Z.max (len + start) 0 else Z.min start len in
  skipn (Z.to_nat k) l.

(** The updater both suggestion branches pass to [setSuggestions]:
    [combined = [...prev, ...newSuggestions]] and then
    [combined.slice(-maxSuggestions)].  [maxSuggestions] is a prop of type
    number, taken here at its integer values. *)
Definition appendTrim (maxSuggestions : Z) (newSuggestions prev : list AISuggestion)
  : list AISuggestion :=
  let combined := prev ++ newSuggestions in
  slice (- maxSuggestions) combined.

(** ** Transport callbacks *)

Definition onConnect : Cmd :=
  console_log "Live AI Suggestions WebSocket connected" ;;
  setIsConnected true ;;
  setConnectionStatus Connected.

Definition onDisconnect : Cmd :=
  console_log "Live AI Suggestions WebSocket disconnected" ;;
  setIsConnected false ;;
  setConnectionStatus Disconnected.

Definition onError : Cmd :=
  console_error "Live AI Suggestions WebSocket error:" ;;
  setConnectionStatus Error.

(** [message.suggestions] used as a condition: an array, even an empty
    one, is truthy, and an absent field is not. *)
Definition truthy {A : Type} (o : option A) : bool :=
  match o with
  | Some _ => true
  | None => false
  end.

(** [message.suggestions || []] *)
Definition orEmpty {A : Type} (o : option (list A)) : list A :=
  match o with
  | Some l => l
  | None => []
  end.

(** [wsClient.onMessage].  [now] is what [new Date().toISOString()] returns
    when the message is handled. *)
Definition onMessage (maxSuggestions : Z) (now : string) (message : WebSocketMessage) : Cmd :=
  console_log "Live AI Suggestions received message:" ;;
  if String.eqb (msg_type message) "suggestions" || truthy (msg_suggestions message) then
    let newSuggestions := orEmpty (msg_suggestions message) in
    setSuggestions (appendTrim maxSuggestions newSuggestions) ;;
    setLastUpdate now ;;
    setTimeout 150
  else if String.eqb (msg_type message) "instant_suggestions" then
    let instantSuggestions := orEmpty (msg_suggestions message) in
    setSuggestions (appendTrim maxSuggestions instantSuggestions) ;;
    setLastUpdate now ;;
    console_log "Instant suggestions received:" ;;
    setTimeout 150
  else if String.eqb (msg_type message) "call_started" then
    setCurrentCall (callData message) ;;
    setIsLiveStreaming true ;;
    console_log "Call started:"
  else if String.eqb (msg_type message) "call_ended" then
    setCurrentCall JsNull ;;
    setIsLiveStreaming false ;;
    console_log "Call ended"
  else if String.eqb (msg_type message) "transcript_chunk" then
    console_log "Transcript chunk received:"
  else
    skip.

(** ** Click handlers *)

(** [action: 'use' | 'dismiss'] *)
Inductive Action : Type :=
  | use
  | dismiss.

Definition handleSuggestionAction (suggestion : AISuggestion) (action : Action) : Cmd :=
  console_log "Suggestion action:" ;;
  match action with
  | use =>
      console_log "Using suggestion:"
  | dismiss =>
      setSuggestions
        (fun prev => filter (fun s => negb (String.eqb (offer_id s) (offer_id suggestion))) prev)
  end.

Definition clearAllSuggestions : Cmd :=
  setSuggestions (fun _ => []) ;;
  setLastUpdate "".

(** ** The subscription effect *)

(** The body of the effect up to the assignment of the callbacks. *)
Definition subscribe : Cmd :=
  console_log "Initializing Live AI Suggestions WebSocket...".

(** The cleanup the effect returns: [wsRef.current?.disconnect()]. *)
Definition cleanup : Cmd :=
  console_log "Cleaning up Live AI Suggestions WebSocket" ;;
  emit WsDisconnect.

(** A render in which one of the effect's dependencies
    [[agentId, callSid, maxSuggestions]] changed: the old effect is cleaned
    up and the effect runs again, its callbacks now closing over the new
    [maxSuggestions].  The [useState] cells are not reset. *)
Definition resubscribe : Cmd :=
  cleanup ;; subscribe.

(** ** The component as an event-driven system *)

(** Everything that can reach the component between two renders: one of
    the transport callbacks or one of the clicks. *)
Inductive Event : Type :=
  | EvConnect
  | EvDisconnect
  | EvError
  | EvMessage (now : string) (message : WebSocketMessage)
  | EvClick (suggestion : AISuggestion) (action : Action)
  | EvClearAll.

Definition handle (maxSuggestions : Z) (e : Event) : Cmd :=
  match e with
  | EvConnect => onConnect
  | EvDisconnect => onDisconnect
  | EvError => onError
  | EvMessage now message => onMessage maxSuggestions now message
  | EvClick suggestion action => handleSuggestionAction suggestion action
  | EvClearAll => clearAllSuggestions
  end.

(** Events are handled one at a time, each to completion. *)
Fixpoint run (maxSuggestions : Z) (events : list Event) : Cmd :=
  match events with
  | [] => skip
  | e :: rest => handle maxSuggestions e ;; run maxSuggestions rest
  end.

Definition stateAfter (c : Cmd) (st : State) : State := fst (c st).
Definition outputOf (c : Cmd) (st : State) : list Effect := snd (c st).

(** The three transport lifecycle callbacks on their own. *)
Inductive TransportEvent : Type :=
  | Connect
  | Disconnect
  | TransportError.

Definition transportCallback (e : TransportEvent) : Cmd :=
  match e with
  | Connect => onConnect
  | Disconnect => onDisconnect
  | TransportError => onError
  end.

(** The [(before, after)] pairs of [connectionStatus] along a sequence of
    transport callbacks. *)
Fixpoint transitions (events : list TransportEvent) (st : State)
  : list (ConnectionStatus * ConnectionStatus) :=
  match events with
  | [] => []
  | e :: rest =>
      let st' := stateAfter (transportCallback e) st in
      (connectionStatus st, connectionStatus st') :: transitions rest st'
  end.

(** The status a callback writes. *)
Definition statusWritten (e : TransportEvent) : ConnectionStatus :=
  match e with
  | Connect => Connected
  | Disconnect => Disconnected
  | TransportError => Error
  end.

(** The transition set the specification lists:
    connecting->connected, connecting->error, connected->disconnected and
    any->error. *)
Definition listedTransition (a b : ConnectionStatus) : Prop :=
  (a = Connecting /\ b = Connected) \/
  (a = Connecting /\ b = Error) \/
  (a = Connected /\ b = Disconnected) \/
  b = Error.

(** ** Vocabulary of the statements *)

(** The [n] most recently appended items of [l], oldest first: take [n]
    items walking back from the newest, then restore arrival order. *)
Definition mostRecent {A : Type} (n : nat) (l : list A) : list A :=
  rev (firstn n (rev l)).

(** A message that reaches the first branch of [onMessage]. *)
Definition carriesBatch (message : WebSocketMessage) : bool :=
  String.eqb (msg_type message) "suggestions" || truthy (msg_suggestions message).

(** A message that reaches one of the two appending branches. *)
Definition isSuggestionMessage (message : WebSocketMessage) : bool :=
  carriesBatch message || String.eqb (msg_type message) "instant_suggestions".

(** The five message kinds [onMessage] names. *)
Definition recognizedType (t : string) : bool :=
  String.eqb t "suggestions" || String.eqb t "instant_suggestions" ||
  String.eqb t "call_started" || String.eqb t "call_ended" ||
  String.eqb t "transcript_chunk".

(** How many entries of a buffer carry a given [offer_id]. *)
Fixpoint countOffer (id : string) (l : list AISuggestion) : nat :=
  match l with
  | [] => 0%nat
  | s :: rest =>
      if String.eqb (offer_id s) id then S (countOffer id rest) else countOffer id rest
  end.

(** [kept] is what remains of [l] after deleting some of its entries, the
    others staying in their order. *)
Inductive Remains {A : Type} : list A -> list A -> Prop :=
  | remains_nil : Remains [] []
  | remains_keep (x : A) (kept l : list A) :
      Remains kept l -> Remains (x :: kept) (x :: l)
  | remains_drop (x : A) (kept l : list A) :
      Remains kept l -> Remains kept (x :: l).

(** The events that come from the transport, as opposed to the clicks. *)
Definition isInbound (e : Event) : bool :=
  match e with
  | EvClick _ _ | EvClearAll => false
  | _ => true
  end.

(** The suggestions an event appends to the buffer: the payload of a
    message that reaches an appending branch, nothing otherwise. *)
Definition payloadOf (e : Event) : list AISuggestion :=
  match e with
  | EvMessage _ message =>
      if isSuggestionMessage message then orEmpty (msg_suggestions message) else []
  | _ => []
  end.

Definition isConsole (e : Effect) : bool :=
  match e with
  | ConsoleLog _ | ConsoleError _ => true
  | _ => false
  end.

(** A suggestion that only matters through its [offer_id]. *)
Definition withId (id : string) : AISuggestion :=
  {| text := "";
     offer_id := id;
     type := "agent_response";
     confidence := 0.5%float;
     deliver_as := say;
     reasoning := None |}.

(** A message of type ['suggestions'] carrying [batch]. *)
Definition batchMessage (batch : list AISuggestion) : WebSocketMessage :=
  {| msg_type := "suggestions";
     msg_suggestions := Some batch;
     callData := JsUndefined;
     transcript := None |}.

(** The ids [s<first>], ..., [s<first + count - 1>] in sequence. *)
Fixpoint sequentialIds (first : nat) (count : nat) : list string :=
  match count with
  | O => []
  | S count' =>
      ("s" ++ NilZero.string_of_uint (Nat.to_uint first))%string
        :: sequentialIds (S first) count'
  end.

(** The state an appending branch of [onMessage] leaves behind. *)
Definition afterAppend (maxSuggestions : Z) (now : string)
    (batch : list AISuggestion) (st : State) : State :=
  {| suggestions := appendTrim maxSuggestions batch (suggestions st);
     isConnected := isConnected st;
     lastUpdate := now;
     currentCall := currentCall st;
     isLiveStreaming := isLiveStreaming st;
     connectionStatus := connectionStatus st |}.

(** The buffer respects the cap. *)
Definition withinCap (maxSuggestions : Z) (st : State) : Prop :=
  Z.of_nat (List.length (suggestions st)) <= maxSuggestions.

(** An event that delivers a suggestion message. *)
Definition isSuggestionEvent (e : Event) : bool :=
  match e with
  | EvMessage _ message => isSuggestionMessage message
  | _ => false
  end.

(** The freshly mounted component with its buffer set to [l]. *)
Definition bufferState (l : list AISuggestion) : State :=
  stateAfter (setSuggestions (fun _ => l)) initialState.

(** The console line every inbound message starts with. *)
Definition receivedLog : Effect :=
  ConsoleLog "Live AI Suggestions received message:".

(** ** Presentation *)

(** [getConnectionStatusColor], a closure over [connectionStatus]; the
    status is passed in.  The [default] arm of the switch has no value of
    the union type to match. *)
Definition getConnectionStatusColor (status : ConnectionStatus) : string :=
  match status with
  | Connected => "text-green-600"
  | Connecting => "text-yellow-600"
  | Disconnected => "text-red-600"
  | Error => "text-red-600"
  end.

(** [getConnectionStatusText] *)
Definition getConnectionStatusText (status : ConnectionStatus) : string :=
  match status with
  | Connected => "Connected"
  | Connecting => "Connecting..."
  | Disconnected => "Disconnected"
  | Error => "Error"
  end.

(** The class of the status dot, the nested conditional in the header. *)
Definition statusDotClass (status : ConnectionStatus) : string :=
  match status with
  | Connected => "bg-green-400 animate-pulse"
  | Connecting => "bg-yellow-400 animate-pulse"
  | _ => "bg-red-400"
  end.

(** [getSuggestionTypeLabel]: a switch over the type string, with a
    default. *)
Definition getSuggestionTypeLabel (type : string) : string :=
  if String.eqb type "agent_response" then "RESPOND"
  else if String.eqb type "customer_question" then "ANSWER"
  else if String.eqb type "competitor_mention" then "COMPETE"
  else if String.eqb type "solution_consultation" then "SOLVE"
  else if String.eqb type "product_recommendation" then "OFFER"
  else if String.eqb type "pricing_inquiry" then "PRICE"
  else "SUGGEST".

(** A number interpolated into text: its decimal digits. *)
Definition decimal (n : nat) : string :=
  NilZero.string_of_uint (Nat.to_uint n).

(** [array.map((item, index) => ...)], counting from [index]. *)
Fixpoint mapWithIndex {A B : Type} (f : A -> nat -> B) (index : nat) (l : list A)
  : list B :=
  match l with
  | [] => []
  | x :: rest => f x index :: mapWithIndex f (S index) rest
  end.

(** What the component renders, cut down to the parts that depend on the
    state: which optional pieces are present, the computed texts and
    classes, and the event each button raises.  The rounded confidence
    percentage of a card is left out. *)
Record Card : Type := mkCard {
  cardKey : string;
  cardLabel : string;
  cardText : string;
  useButton : Event;
  dismissButton : Event
}.

Record Header : Type := mkHeader {
  liveBadge : bool;
  dotClass : string;
  statusClass : string;
  statusText : string;
  clearButton : option Event
}.

Inductive Body : Type :=
  | EmptyState (hint : string)
  | ChatWindow (cards : list Card) (footer : string).

Record View : Type := mkView {
  viewHeader : option Header;
  viewBody : Body
}.

(** One element of [suggestions.map(...)]; the key is
    [`${suggestion.offer_id}-${index}-${lastUpdate}`]. *)
Definition renderCard (lastUpdate : string) (suggestion : AISuggestion) (index : nat)
  : Card :=
  {| cardKey := (offer_id suggestion ++ "-" ++ decimal index ++ "-" ++ lastUpdate)%string;
     cardLabel := getSuggestionTypeLabel (type suggestion);
     cardText := text suggestion;
     useButton := EvClick suggestion use;
     dismissButton := EvClick suggestion dismiss |}.

(** The footer text, [{length} suggestion{length !== 1 ? 's' : ''}]. *)
Definition footerText (count : nat) : string :=
  (decimal count ++ " suggestion" ++ (if Nat.eqb count 1 then "" else "s"))%string.

(** The returned JSX. *)
Definition render (showHeader : bool) (st : State) : View :=
  {| viewHeader :=
       if showHeader then
         Some {| liveBadge := isLiveStreaming st;
                 dotClass := statusDotClass (connectionStatus st);
                 statusClass := getConnectionStatusColor (connectionStatus st);
                 statusText := getConnectionStatusText (connectionStatus st);
                 clearButton :=
                   if (0 <? List.length (suggestions st))%nat
                   then Some EvClearAll else None |}
       else None;
     viewBody :=
       if Nat.eqb (List.length (suggestions st)) 0 then
         EmptyState
           (if isConnected st
            then "AI suggestions will appear here during calls"
            else "Connecting...")
       else
         ChatWindow
           (mapWithIndex (renderCard (lastUpdate st)) 0 (suggestions st))
           (footerText (List.length (suggestions st))) |}.

(** The cards on screen. *)
Definition shownCards (v : View) : list Card :=
  match viewBody v with
  | EmptyState _ => []
  | ChatWindow cards _ => cards
  end.

(** ** Vocabulary of the further statements *)

(** The connected flag agrees with the status wherever the status says
    anything about the connection. *)
Definition connectionConsistent (st : State) : bool :=
  match connectionStatus st with
  | Connected => isConnected st
  | Connecting | Disconnected => negb (isConnected st)
  | Error => true
  end.

(** Outside a call there is no call context. *)
Definition callConsistent (st : State) : bool :=
  isLiveStreaming st ||
  match currentCall st with
  | JsNull => true
  | _ => false
  end.

(** A shown buffer has been stamped. *)
Definition stampConsistent (st : State) : bool :=
  Nat.eqb (List.length (suggestions st)) 0 || negb (String.eqb (lastUpdate st) "").

(** The clock never yields the empty string. *)
Definition stamped (e : Event) : bool :=
  match e with
  | EvMessage now _ => negb (String.eqb now "")
  | _ => true
  end.

Definition isTransportEvent (e : Event) : bool :=
  match e with
  | EvConnect | EvDisconnect | EvError => true
  | _ => false
  end.

(** The effects a handler may produce: console lines and the 150 ms
    scroll timer. *)
Definition isLocalEffect (e : Effect) : bool :=
  match e with
  | ConsoleLog _ | ConsoleError _ => true
  | SetTimeout ms => ms =? 150
  | _ => false
  end.

Definition isTimer (e : Effect) : bool :=
  match e with
  | SetTimeout _ => true
  | _ => false
  end.

(** The cells the transport callbacks own. *)
Definition connectionCells (st : State) : bool * ConnectionStatus :=
  (isConnected st, connectionStatus st).

(** The cells the messages and the clicks own. *)
Definition contentCells (st : State)
  : list AISuggestion * string * JsAny * bool :=
  (suggestions st, lastUpdate st, currentCall st, isLiveStreaming st).

(** The six type strings [getSuggestionTypeLabel] names. *)
Definition knownTypes : list string :=
  ["agent_response"; "customer_question"; "competitor_mention";
   "solution_consultation"; "product_recommendation"; "pricing_inquiry"].

(** ** Facts about [slice] and [mostRecent] *)

Section Windows.
Context {A : Type}.
Implicit Types (l b : list A) (n : nat).

Lemma mostRecent_skipn n l :
  mostRecent n l = skipn (List.length l - n) l.
Proof.
  unfold mostRecent. rewrite firstn_rev. apply rev_involutive.
Qed.

Lemma mostRecent_length n l :
  List.length (mostRecent n l) = Nat.min n (List.length l).
Proof.
  rewrite mostRecent_skipn, length_skipn. lia.
Qed.

Lemma mostRecent_short n l :
  (List.length l <= n)%nat -> mostRecent n l = l.
Proof.
  intros Hle. rewrite mostRecent_skipn.
  replace (List.length l - n)%nat with 0%nat by lia. reflexivity.
Qed.

(** Trimming early loses nothing a later trim would have kept. *)
Lemma mostRecent_absorb n l b :
  mostRecent n (mostRecent n l ++ b) = mostRecent n (l ++ b).
Proof.
  destruct (Nat.le_gt_cases (List.length l) n) as [Hle | Hgt].
  - now rewrite (mostRecent_short n l).
  - rewrite !mostRecent_skipn, !length_app, length_skipn.
    rewrite !skipn_app, skipn_skipn, length_skipn.
    f_equal; f_equal; lia.
Qed.

(** With a cap of at least one, [slice(-cap)] is the window of the
    [cap] most recent items. *)
Lemma slice_neg_mostRecent (cap : Z) l :
  1 <= cap -> slice (- cap) l = mostRecent (Z.to_nat cap) l.
Proof.
  intros Hcap. unfold slice. rewrite mostRecent_skipn.
  destruct (Z.ltb_spec (- cap) 0) as [_ | Hge]; [| lia].
  f_equal. lia.
Qed.

(** [-0] is [0], and [slice(0)] is a copy of the whole array. *)
Lemma slice_neg_zero l : slice (- 0) l = l.
Proof.
  unfold slice. simpl. rewrite Z.min_l by lia. reflexivity.
Qed.
End Windows.

(** ** Running commands *)

Lemma stateAfter_seq (c1 c2 : Cmd) (st : State) :
  stateAfter (c1 ;; c2) st = stateAfter c2 (stateAfter c1 st).
Proof.
  unfold stateAfter, seq.
  destruct (c1 st) as [st1 out1]. simpl.
  destruct (c2 st1) as [st2 out2]. reflexivity.
Qed.

Lemma run_cons (cap : Z) (e : Event) (rest : list Event) (st : State) :
  stateAfter (run cap (e :: rest)) st
  = stateAfter (run cap rest) (stateAfter (handle cap e) st).
Proof. simpl run. apply stateAfter_seq. Qed.

(** ** The branches of [onMessage] *)

Lemma onMessage_first_branch cap now message st :
  carriesBatch message = true ->
  onMessage cap now message st
  = (afterAppend cap now (orEmpty (msg_suggestions message)) st,
     [receivedLog; SetTimeout 150]).
Proof.
  unfold carriesBatch, onMessage. intros ->. reflexivity.
Qed.

Lemma onMessage_appends cap now message st :
  isSuggestionMessage message = true ->
  stateAfter (onMessage cap now message) st
  = afterAppend cap now (orEmpty (msg_suggestions message)) st.
Proof.
  unfold isSuggestionMessage. intros Hm.
  destruct (carriesBatch message) eqn:Hfirst.
  - unfold stateAfter. now rewrite onMessage_first_branch.
  - simpl in Hm. unfold carriesBatch in Hfirst.
    unfold stateAfter, onMessage. rewrite Hfirst, Hm. reflexivity.
Qed.

(** A message that reaches neither appending branch leaves the buffer and
    the last-update marker alone. *)
Lemma onMessage_other_buffer cap now message st :
  isSuggestionMessage message = false ->
  suggestions (stateAfter (onMessage cap now message) st) = suggestions st /\
  lastUpdate (stateAfter (onMessage cap now message) st) = lastUpdate st.
Proof.
  unfold isSuggestionMessage, carriesBatch. intros Hm.
  apply orb_false_iff in Hm as [Hfirst Hinstant].
  unfold stateAfter, onMessage. rewrite Hfirst, Hinstant.
  repeat match goal with
         | |- context [if ?c then _ else _] => destruct c
         end; split; reflexivity.
Qed.

(** Suggestion messages never touch the call context or the live flag. *)
Lemma onMessage_appends_call cap now message st :
  isSuggestionMessage message = true ->
  currentCall (stateAfter (onMessage cap now message) st) = currentCall st /\
  isLiveStreaming (stateAfter (onMessage cap now message) st) = isLiveStreaming st.
Proof.
  intros Hm. rewrite onMessage_appends by assumption. split; reflexivity.
Qed.

(** ** The rolling window *)

Lemma appendTrim_window (cap : Z) (batch prev : list AISuggestion) :
  1 <= cap ->
  appendTrim cap batch prev = mostRecent (Z.to_nat cap) (prev ++ batch).
Proof.
  intros Hcap. unfold appendTrim. now apply slice_neg_mostRecent.
Qed.

Lemma appendTrim_withinCap (cap : Z) (batch prev : list AISuggestion) :
  1 <= cap ->
  Z.of_nat (List.length (appendTrim cap batch prev)) <= cap.
Proof.
  intros Hcap. rewrite appendTrim_window, mostRecent_length by assumption. lia.
Qed.

Lemma filter_shorter {A : Type} (f : A -> bool) (l : list A) :
  (List.length (filter f l) <= List.length l)%nat.
Proof.
  induction l as [| x l IH]; simpl; [lia |].
  destruct (f x); simpl; lia.
Qed.

(** Under a cap of at least one, no event can push the buffer over it. *)
Lemma handle_withinCap (cap : Z) (e : Event) (st : State) :
  1 <= cap -> withinCap cap st -> withinCap cap (stateAfter (handle cap e) st).
Proof.
  unfold withinCap. intros Hcap Hst.
  destruct e as [| | | now message | suggestion action |]; try exact Hst.
  - simpl handle. destruct (isSuggestionMessage message) eqn:Hm.
    + rewrite onMessage_appends by assumption. simpl.
      now apply appendTrim_withinCap.
    + destruct (onMessage_other_buffer cap now message st Hm) as [-> _].
      exact Hst.
  - destruct action; [exact Hst |].
    unfold stateAfter; simpl.
    pose proof (filter_shorter
      (fun s => negb (String.eqb (offer_id s) (offer_id suggestion)))
      (suggestions st)). lia.
  - unfold stateAfter; simpl. lia.
Qed.

Lemma run_withinCap (cap : Z) (events : list Event) (st : State) :
  1 <= cap -> withinCap cap st -> withinCap cap (stateAfter (run cap events) st).
Proof.
  intros Hcap. revert st.
  induction events as [| e rest IH]; intros st Hst.
  - exact Hst.
  - rewrite run_cons. apply IH. now apply handle_withinCap.
Qed.

(** What one inbound event does to the window. *)
Lemma handle_inbound_window (cap : Z) (e : Event) (st : State) :
  1 <= cap -> isInbound e = true ->
  mostRecent (Z.to_nat cap) (suggestions (stateAfter (handle cap e) st))
  = mostRecent (Z.to_nat cap) (suggestions st ++ payloadOf e).
Proof.
  intros Hcap He.
  destruct e as [| | | now message | suggestion action |];
    try discriminate He; try (simpl payloadOf; now rewrite app_nil_r).
  simpl handle. simpl payloadOf.
  destruct (isSuggestionMessage message) eqn:Hm.
  - rewrite onMessage_appends by assumption. simpl.
    rewrite appendTrim_window by assumption.
    apply mostRecent_short. rewrite mostRecent_length. lia.
  - destruct (onMessage_other_buffer cap now message st Hm) as [-> _].
    now rewrite app_nil_r.
Qed.

Lemma run_inbound_window (cap : Z) (events : list Event) (st : State) :
  1 <= cap -> Forall (fun e => isInbound e = true) events ->
  mostRecent (Z.to_nat cap) (suggestions (stateAfter (run cap events) st))
  = mostRecent (Z.to_nat cap) (suggestions st ++ flat_map payloadOf events).
Proof.
  intros Hcap Hin. revert st.
  induction Hin as [| e rest He _ IH]; intros st.
  - simpl. now rewrite app_nil_r.
  - rewrite run_cons, IH. simpl flat_map.
    rewrite <- mostRecent_absorb, handle_inbound_window by assumption.
    rewrite mostRecent_absorb. now rewrite app_assoc.
Qed.

(** X20.  For every cap of at least one the buffer is the rolling window the
    component promises: whatever inbound events arrive, in whatever order,
    the buffer never exceeds the cap and holds exactly the most recently
    appended [maxSuggestions] items in arrival order. *)
Theorem buffer_is_window_positive_cap (cap : Z) (events : list Event) :
  1 <= cap -> Forall (fun e => isInbound e = true) events ->
  let buffer := suggestions (stateAfter (run cap events) initialState) in
  Z.of_nat (List.length buffer) <= cap /\
  buffer = mostRecent (Z.to_nat cap) (flat_map payloadOf events).
Proof.
  intros Hcap Hin buffer.
  assert (Hlen : Z.of_nat (List.length buffer) <= cap).
  { apply (run_withinCap cap events initialState Hcap). unfold withinCap. simpl. lia. }
  split; [exact Hlen |].
  rewrite <- (mostRecent_short (Z.to_nat cap) buffer) by lia.
  unfold buffer. now rewrite run_inbound_window.
Qed.

(** The scenario of the specification: cap 21, one batch s1..s25 into the
    empty buffer leaves s5..s25 in that order. *)
Example scenario_cap21_batch25 :
  map offer_id
    (suggestions
       (stateAfter
          (onMessage 21 "2024-01-01T00:00:00.000Z"
             (batchMessage (map withId (sequentialIds 1 25))))
          initialState))
  = sequentialIds 5 21.
Proof. vm_compute. reflexivity. Qed.

(** C1, at the cap the code gets wrong.  With [maxSuggestions = 0] the
    trim is [combined.slice(-0)], that is [combined.slice(0)], a copy of the
    whole array: a suggestion message appends its batch and evicts nothing,
    so the buffer grows past the cap instead of holding the zero most
    recent items.  One suggestion sent to the freshly mounted component
    already leaves a buffer of length one. *)
Theorem zero_cap_never_trims :
  forall (now : string) (batch : list AISuggestion) (st : State),
    suggestions (stateAfter (onMessage 0 now (batchMessage batch)) st)
    = suggestions st ++ batch /\
    suggestions
      (stateAfter (onMessage 0 now (batchMessage [withId "s1"])) initialState)
    = [withId "s1"] /\
    mostRecent (Z.to_nat 0) [withId "s1"] = [].
Proof.
  intros now batch st. split; [| split; reflexivity].
  unfold stateAfter. rewrite onMessage_first_branch by reflexivity.
  simpl. unfold appendTrim. apply slice_neg_zero.
Qed.

(** ** Dismissing *)

Lemma dismiss_buffer (suggestion : AISuggestion) (st : State) :
  suggestions (stateAfter (handleSuggestionAction suggestion dismiss) st)
  = filter (fun s => negb (String.eqb (offer_id s) (offer_id suggestion)))
      (suggestions st).
Proof. reflexivity. Qed.

Lemma filter_Remains {A : Type} (f : A -> bool) (l : list A) :
  Remains (filter f l) l.
Proof.
  induction l as [| x l IH]; simpl.
  - constructor.
  - destruct (f x); now constructor.
Qed.

Lemma filter_other_offers (id : string) (l : list AISuggestion) :
  Forall (fun s => offer_id s <> id)
    (filter (fun s => negb (String.eqb (offer_id s) id)) l).
Proof.
  induction l as [| x l IH]; simpl.
  - constructor.
  - destruct (String.eqb_spec (offer_id x) id) as [Heq | Hne]; simpl.
    + exact IH.
    + now constructor.
Qed.

Lemma filter_countOffer (id : string) (l : list AISuggestion) :
  (List.length (filter (fun s => negb (String.eqb (offer_id s) id)) l)
   + countOffer id l = List.length l)%nat.
Proof.
  induction l as [| x l IH]; simpl.
  - reflexivity.
  - destruct (String.eqb (offer_id x) id); simpl; lia.
Qed.

(** C2.  Dismissing a suggestion deletes every buffer entry that carries
    its offer_id and nothing else: no entry with that id is left, the
    entries left are the buffer's other entries in their old order, and the
    length drops by the number of matching entries; the rest of the state
    is untouched.  Dismissing "a" from [a; b; a] leaves [b]. *)
Theorem dismiss_removes_every_match :
  forall (suggestion : AISuggestion) (st : State),
    let st' := stateAfter (handleSuggestionAction suggestion dismiss) st in
    let matching := countOffer (offer_id suggestion) (suggestions st) in
    Forall (fun s => offer_id s <> offer_id suggestion) (suggestions st') /\
    Remains (suggestions st') (suggestions st) /\
    List.length (suggestions st') = (List.length (suggestions st) - matching)%nat /\
    (List.length (suggestions st') + matching)%nat = List.length (suggestions st) /\
    (isConnected st', lastUpdate st', currentCall st', isLiveStreaming st',
     connectionStatus st')
    = (isConnected st, lastUpdate st, currentCall st, isLiveStreaming st,
       connectionStatus st) /\
    suggestions
      (stateAfter (handleSuggestionAction (withId "a") dismiss)
         (bufferState [withId "a"; withId "b"; withId "a"]))
    = [withId "b"].
Proof.
  intros suggestion st st' matching.
  pose proof (filter_countOffer (offer_id suggestion) (suggestions st)) as Hcount.
  unfold st', matching. rewrite !dismiss_buffer.
  repeat split.
  - apply filter_other_offers.
  - apply filter_Remains.
  - lia.
  - exact Hcount.
Qed.

(** ** Connection status *)

Lemma transitions_written (events : list TransportEvent) (st : State) :
  map snd (transitions events st) = map statusWritten events.
Proof.
  revert st. induction events as [| e rest IH]; intros st; simpl.
  - reflexivity.
  - rewrite IH. now destruct e.
Qed.

Lemma transitions_never_connecting (events : list TransportEvent) (st : State) :
  Forall (fun p => snd p <> Connecting) (transitions events st).
Proof.
  revert st. induction events as [| e rest IH]; intros st; simpl.
  - constructor.
  - constructor; [| apply IH]. now destruct e.
Qed.

(** C3 as stated fails: nothing guards the callbacks, so an error followed
    by a disconnect moves the status from error to disconnected, which is
    not one of the listed transitions. *)
Lemma status_leaves_listed_transitions :
  ~ (forall events : list TransportEvent,
       Forall (fun p => fst p = snd p \/ listedTransition (fst p) (snd p))
         (transitions events initialState)).
Proof.
  intros Hall.
  specialize (Hall [TransportError; Disconnect]).
  simpl in Hall.
  apply Forall_inv_tail, Forall_inv in Hall. simpl in Hall.
  unfold listedTransition in Hall.
  destruct Hall as [H | [[H _] | [[H _] | [[H _] | H]]]]; discriminate H.
Qed.

(** C3, amended.  Starting from connecting, every transport callback
    writes the status it names (connect: connected, disconnect:
    disconnected, error: error) whatever the status was, so the status
    changes only along any->connected, any->disconnected and any->error and
    never returns to connecting.  Transitions outside the listed set are
    therefore reachable: connecting->disconnected, disconnected->connected,
    error->connected and error->disconnected. *)
Theorem status_follows_last_callback :
  forall events : list TransportEvent,
    map snd (transitions events initialState) = map statusWritten events /\
    Forall (fun p => snd p <> Connecting) (transitions events initialState) /\
    In (Connecting, Disconnected) (transitions [Disconnect] initialState) /\
    In (Disconnected, Connected)
      (transitions [Connect; Disconnect; Connect] initialState) /\
    In (Error, Connected) (transitions [TransportError; Connect] initialState) /\
    In (Error, Disconnected)
      (transitions [TransportError; Disconnect] initialState).
Proof.
  intros events.
  split; [apply transitions_written |].
  split; [apply transitions_never_connecting |].
  simpl. repeat split; auto.
Qed.

(** ** Call lifecycle *)

Lemma onMessage_call_started cap now message st :
  msg_type message = "call_started" -> msg_suggestions message = None ->
  stateAfter (onMessage cap now message) st
  = stateAfter (setCurrentCall (callData message) ;; setIsLiveStreaming true) st.
Proof.
  intros Ht Hs. unfold stateAfter, onMessage. rewrite Ht, Hs. reflexivity.
Qed.

Lemma onMessage_call_ended cap now message st :
  msg_type message = "call_ended" -> msg_suggestions message = None ->
  stateAfter (onMessage cap now message) st
  = stateAfter (setCurrentCall JsNull ;; setIsLiveStreaming false) st.
Proof.
  intros Ht Hs. unfold stateAfter, onMessage. rewrite Ht, Hs. reflexivity.
Qed.

(** A run of suggestion messages leaves the call context and the live
    flag as they were. *)
Lemma run_suggestions_call (cap : Z) (events : list Event) (st : State) :
  Forall (fun e => isSuggestionEvent e = true) events ->
  currentCall (stateAfter (run cap events) st) = currentCall st /\
  isLiveStreaming (stateAfter (run cap events) st) = isLiveStreaming st.
Proof.
  intros Hall. revert st.
  induction Hall as [| e rest He _ IH]; intros st.
  - split; reflexivity.
  - rewrite run_cons.
    destruct (IH (stateAfter (handle cap e) st)) as [-> ->].
    destruct e; try discriminate He.
    simpl handle. now apply onMessage_appends_call.
Qed.

(** C4 as stated fails: a call_started message that also carries a
    suggestions array, even an empty one, is taken by the first branch of
    the dispatch and the live flag stays off. *)
Lemma call_started_with_batch_not_live :
  ~ (forall (cap : Z) (now : string) (message : WebSocketMessage) (st : State),
       msg_type message = "call_started" ->
       isLiveStreaming (stateAfter (onMessage cap now message) st) = true /\
       currentCall (stateAfter (onMessage cap now message) st) = callData message).
Proof.
  intros Hall.
  destruct (Hall 21 "2024-01-01T00:00:00.000Z"
              {| msg_type := "call_started";
                 msg_suggestions := Some [];
                 callData := JsObject "{}";
                 transcript := None |}
              initialState eq_refl) as [Hlive _].
  discriminate Hlive.
Qed.

(** C4, amended.  A call_started message that carries no suggestions
    payload sets the live flag and stores the message's call context; they
    stay so through any suggestion messages that follow; a later call_ended
    message that carries no suggestions payload sets the live flag to false
    and resets the call context to null. *)
Theorem call_lifecycle
    (cap : Z) (now1 now2 : string) (started ended : WebSocketMessage)
    (between : list Event) (st : State) :
  msg_type started = "call_started" -> msg_suggestions started = None ->
  msg_type ended = "call_ended" -> msg_suggestions ended = None ->
  Forall (fun e => isSuggestionEvent e = true) between ->
  let st1 := stateAfter (onMessage cap now1 started) st in
  let st2 := stateAfter (run cap between) st1 in
  let st3 := stateAfter (onMessage cap now2 ended) st2 in
  (isLiveStreaming st1 = true /\ currentCall st1 = callData started) /\
  (isLiveStreaming st2 = true /\ currentCall st2 = callData started) /\
  (isLiveStreaming st3 = false /\ currentCall st3 = JsNull).
Proof.
  intros Hst Hsp Het Hep Hbetween st1 st2 st3.
  assert (H1 : isLiveStreaming st1 = true /\ currentCall st1 = callData started).
  { unfold st1. rewrite onMessage_call_started by assumption. split; reflexivity. }
  split; [exact H1 |]. split.
  - destruct (run_suggestions_call cap between st1 Hbetween) as [Hcall Hlive].
    unfold st2. rewrite Hcall, Hlive. destruct H1; split; assumption.
  - unfold st3. rewrite onMessage_call_ended by assumption. split; reflexivity.
Qed.

Lemma call_lifecycle_witness :
  let started := {| msg_type := "call_started"; msg_suggestions := None;
                    callData := JsObject "{sid:1}"; transcript := None |} in
  let ended := {| msg_type := "call_ended"; msg_suggestions := None;
                  callData := JsUndefined; transcript := None |} in
  let between := [EvMessage "t1" (batchMessage [withId "a"])] in
  let st1 := stateAfter (onMessage 21 "t0" started) initialState in
  let st2 := stateAfter (run 21 between) st1 in
  let st3 := stateAfter (onMessage 21 "t2" ended) st2 in
  (isLiveStreaming st1 = true /\ currentCall st1 = JsObject "{sid:1}") /\
  (isLiveStreaming st2 = true /\ currentCall st2 = JsObject "{sid:1}") /\
  (isLiveStreaming st3 = false /\ currentCall st3 = JsNull).
Proof.
  intros started ended between.
  apply (call_lifecycle 21 "t0" "t2" started ended between initialState);
    try reflexivity.
  repeat constructor.
Defined.

(** ** The two suggestion branches *)

(** C5.  Whatever the state and whatever the rest of the message, giving
    it the declared type instant_suggestions leaves the same state (buffer
    and last-update marker included) and arms the same scroll timer as
    giving it the type suggestions; this holds with or without a payload.
    With a payload the two runs are identical down to the console output,
    and without one they differ by one console line. *)
Theorem instant_suggestions_same_as_suggestions :
  forall (cap : Z) (now : string) (batch : list AISuggestion)
         (payload : option (list AISuggestion))
         (call : JsAny) (line : option string) (st : State),
    let typed := fun declared carried =>
      {| msg_type := declared; msg_suggestions := carried;
         callData := call; transcript := line |} in
    onMessage cap now (typed "instant_suggestions" (Some batch)) st
    = onMessage cap now (typed "suggestions" (Some batch)) st /\
    stateAfter (onMessage cap now (typed "instant_suggestions" (Some batch))) st
    = afterAppend cap now batch st /\
    stateAfter (onMessage cap now (typed "instant_suggestions" payload)) st
    = stateAfter (onMessage cap now (typed "suggestions" payload)) st /\
    filter (fun e => negb (isConsole e))
      (outputOf (onMessage cap now (typed "instant_suggestions" payload)) st)
    = filter (fun e => negb (isConsole e))
        (outputOf (onMessage cap now (typed "suggestions" payload)) st).
Proof.
  intros cap now batch payload call line st typed.
  split; [reflexivity |].
  split; [reflexivity |].
  split; now destruct payload.
Qed.

(** ** Clearing *)

(** C6.  Clear-all empties the buffer and the last-update marker whatever
    they held, keeps the connection status, the connected flag, the live
    flag and the call context, and produces no output. *)
Theorem clearAll_resets_buffer_and_marker :
  forall st : State,
    clearAllSuggestions st
    = ({| suggestions := [];
          isConnected := isConnected st;
          lastUpdate := "";
          currentCall := currentCall st;
          isLiveStreaming := isLiveStreaming st;
          connectionStatus := connectionStatus st |}, []).
Proof. intros st. reflexivity. Qed.

(** ** Messages the dispatch does not know *)

(** C7.  A message whose type is none of the five kinds the dispatch
    names and which carries no suggestions payload falls through every
    branch: the handler returns, the whole state is as before and the only
    output is the console line every message gets. *)
Theorem unrecognized_message_ignored
    (cap : Z) (now : string) (message : WebSocketMessage) (st : State) :
  recognizedType (msg_type message) = false ->
  msg_suggestions message = None ->
  onMessage cap now message st = (st, [receivedLog]).
Proof.
  unfold recognizedType. intros Htype Hnone.
  repeat (apply orb_false_iff in Htype as [Htype ?]).
  unfold onMessage.
  repeat match goal with
         | H : String.eqb _ _ = false |- _ => rewrite H; clear H
         end.
  rewrite Hnone. reflexivity.
Qed.

Lemma unrecognized_message_ignored_witness :
  let ping := {| msg_type := "ping"; msg_suggestions := None;
                 callData := JsUndefined; transcript := None |} in
  let st := stateAfter (onMessage 21 "t0" (batchMessage [withId "a"])) initialState in
  onMessage 21 "t1" ping st = (st, [receivedLog]).
Proof.
  intros ping st.
  apply (unrecognized_message_ignored 21 "t1" ping st); reflexivity.
Defined.

(** ** Using a suggestion *)

(** C8.  The use action changes nothing in the component state and its
    whole output is two console lines: nothing is sent on the transport
    and no timer is armed. *)
Theorem use_only_logs :
  forall (suggestion : AISuggestion) (st : State),
    stateAfter (handleSuggestionAction suggestion use) st = st /\
    outputOf (handleSuggestionAction suggestion use) st
    = [ConsoleLog "Suggestion action:"; ConsoleLog "Using suggestion:"] /\
    forallb isConsole (outputOf (handleSuggestionAction suggestion use) st) = true.
Proof. intros suggestion st. repeat split. Qed.

(** ** Payload before type *)

(** C9.  A message that carries a suggestions array is handled by the
    first, appending branch whatever its declared type: the batch is
    appended and trimmed, the marker is stamped, the scroll timer is armed,
    and the live flag and the call context stay as they were, also when the
    type is call_started or call_ended. *)
Theorem payload_wins_over_type
    (cap : Z) (now : string) (message : WebSocketMessage)
    (batch : list AISuggestion) (st : State) :
  msg_suggestions message = Some batch ->
  onMessage cap now message st
  = (afterAppend cap now batch st, [receivedLog; SetTimeout 150]) /\
  isLiveStreaming (stateAfter (onMessage cap now message) st) = isLiveStreaming st /\
  currentCall (stateAfter (onMessage cap now message) st) = currentCall st.
Proof.
  intros Hsome.
  assert (Hfirst : carriesBatch message = true).
  { unfold carriesBatch. rewrite Hsome. apply orb_true_r. }
  unfold stateAfter. rewrite onMessage_first_branch by assumption.
  rewrite Hsome. repeat split.
Qed.

Lemma payload_wins_over_type_witness :
  let live := stateAfter (setCurrentCall (JsObject "{sid:1}") ;; setIsLiveStreaming true)
                initialState in
  let started := {| msg_type := "call_started"; msg_suggestions := Some [];
                    callData := JsObject "{sid:2}"; transcript := None |} in
  let ended := {| msg_type := "call_ended"; msg_suggestions := Some [withId "a"];
                  callData := JsUndefined; transcript := None |} in
  (isLiveStreaming (stateAfter (onMessage 21 "t0" started) initialState) = false /\
   currentCall (stateAfter (onMessage 21 "t0" started) initialState) = JsNull) /\
  (isLiveStreaming (stateAfter (onMessage 21 "t1" ended) live) = true /\
   currentCall (stateAfter (onMessage 21 "t1" ended) live) = JsObject "{sid:1}").
Proof.
  intros live started ended. split.
  - apply (payload_wins_over_type 21 "t0" started [] initialState). reflexivity.
  - apply (payload_wins_over_type 21 "t1" ended [withId "a"] live). reflexivity.
Defined.

(** ** Empty batches *)

Lemma appendTrim_nothing (cap : Z) (prev : list AISuggestion) :
  Z.of_nat (List.length prev) <= cap -> appendTrim cap [] prev = prev.
Proof.
  intros Hle. unfold appendTrim. rewrite app_nil_r.
  destruct (Z.eq_dec cap 0) as [-> | Hne].
  - apply slice_neg_zero.
  - rewrite slice_neg_mostRecent by lia. apply mostRecent_short. lia.
Qed.

(** C10 as stated fails: the trim also runs on an empty batch, so in a
    state whose buffer is longer than the cap (two suggestions received
    under a cap of two, the cap then lowered to one) a suggestions message
    without payload drops the oldest entry. *)
Lemma empty_batch_trims_long_buffer :
  ~ (forall (cap : Z) (now : string) (message : WebSocketMessage) (st : State),
       msg_type message = "suggestions" ->
       msg_suggestions message = None \/ msg_suggestions message = Some [] ->
       suggestions (stateAfter (onMessage cap now message) st) = suggestions st /\
       lastUpdate (stateAfter (onMessage cap now message) st) = now).
Proof.
  intros Hall.
  destruct (Hall 1 "t1"
              {| msg_type := "suggestions"; msg_suggestions := None;
                 callData := JsUndefined; transcript := None |}
              (stateAfter
                 (run 2 [EvMessage "t0" (batchMessage [withId "a"; withId "b"])] ;;
                  resubscribe)
                 initialState)
              eq_refl (or_introl eq_refl)) as [Hbuffer _].
  apply (f_equal (@List.length AISuggestion)) in Hbuffer.
  vm_compute in Hbuffer. discriminate Hbuffer.
Qed.

(** C10, amended.  In every state whose buffer holds at most
    [maxSuggestions] entries, a message of type suggestions whose
    suggestions field is absent or an empty array leaves the buffer as it
    is and still stamps the last-update marker with the new timestamp. *)
Theorem empty_batch_keeps_buffer
    (cap : Z) (now : string) (message : WebSocketMessage) (st : State) :
  msg_type message = "suggestions" ->
  msg_suggestions message = None \/ msg_suggestions message = Some [] ->
  withinCap cap st ->
  suggestions (stateAfter (onMessage cap now message) st) = suggestions st /\
  lastUpdate (stateAfter (onMessage cap now message) st) = now.
Proof.
  intros Htype Hempty Hcap.
  assert (Hfirst : carriesBatch message = true).
  { unfold carriesBatch. now rewrite Htype. }
  assert (Hbatch : orEmpty (msg_suggestions message) = []).
  { now destruct Hempty as [-> | ->]. }
  unfold stateAfter. rewrite onMessage_first_branch by assumption.
  rewrite Hbatch. simpl. split; [| reflexivity].
  now apply appendTrim_nothing.
Qed.

Lemma empty_batch_keeps_buffer_witness :
  let st := stateAfter
              (run 21 [EvMessage "t0" (batchMessage [withId "a"; withId "b"])])
              initialState in
  let empty := {| msg_type := "suggestions"; msg_suggestions := Some [];
                  callData := JsUndefined; transcript := None |} in
  suggestions (stateAfter (onMessage 21 "t1" empty) st) = suggestions st /\
  lastUpdate (stateAfter (onMessage 21 "t1" empty) st) = "t1".
Proof.
  intros st empty.
  apply (empty_batch_keeps_buffer 21 "t1" empty st).
  - reflexivity.
  - right. reflexivity.
  - unfold withinCap. vm_compute. discriminate.
Defined.

(** ** Invariants of the reachable states *)

Lemma state_eta (st : State) :
  {| suggestions := suggestions st;
     isConnected := isConnected st;
     lastUpdate := lastUpdate st;
     currentCall := currentCall st;
     isLiveStreaming := isLiveStreaming st;
     connectionStatus := connectionStatus st |} = st.
Proof.
  destruct st. reflexivity.
Qed.

Lemma outputOf_seq (c1 c2 : Cmd) (st : State) :
  outputOf (c1 ;; c2) st = outputOf c1 st ++ outputOf c2 (stateAfter c1 st).
Proof.
  unfold outputOf, stateAfter, seq.
  destruct (c1 st) as [st1 out1]. simpl.
  destruct (c2 st1) as [st2 out2]. reflexivity.
Qed.

(** Splits [onMessage] into the six arms of its dispatch. *)
Ltac dispatch message :=
  unfold stateAfter, outputOf, onMessage;
  destruct (String.eqb (msg_type message) "suggestions");
  destruct (truthy (msg_suggestions message));
  destruct (String.eqb (msg_type message) "instant_suggestions");
  destruct (String.eqb (msg_type message) "call_started");
  destruct (String.eqb (msg_type message) "call_ended");
  destruct (String.eqb (msg_type message) "transcript_chunk");
  simpl.

(** An invariant of single events that holds at mount holds after every
    run. *)
Lemma run_invariant (P : State -> Prop) (cap : Z) (events : list Event) :
  (forall e st, In e events -> P st -> P (stateAfter (handle cap e) st)) ->
  forall st, P st -> P (stateAfter (run cap events) st).
Proof.
  induction events as [| e rest IH]; intros Hstep st Hst.
  - exact Hst.
  - rewrite run_cons. apply IH.
    + intros e' st' Hin. apply Hstep. now right.
    + apply Hstep; [now left | exact Hst].
Qed.

Lemma onMessage_connectionCells cap now message st :
  connectionCells (stateAfter (onMessage cap now message) st) = connectionCells st.
Proof.
  dispatch message; reflexivity.
Qed.

Lemma handle_connectionConsistent cap e st :
  connectionConsistent st = true ->
  connectionConsistent (stateAfter (handle cap e) st) = true.
Proof.
  intros Hst.
  destruct e as [| | | now message | suggestion action |]; try reflexivity.
  - pose proof (onMessage_connectionCells cap now message st) as Hcells.
    unfold connectionCells in Hcells. injection Hcells as Hflag Hstatus.
    unfold connectionConsistent. simpl handle. now rewrite Hflag, Hstatus.
  - destruct action; exact Hst.
  - exact Hst.
Qed.

Lemma run_connectionConsistent (cap : Z) (events : list Event) :
  connectionConsistent (stateAfter (run cap events) initialState) = true.
Proof.
  apply (run_invariant (fun st => connectionConsistent st = true)).
  - intros e st _. apply handle_connectionConsistent.
  - reflexivity.
Qed.


Lemma handle_callConsistent cap e st :
  callConsistent st = true ->
  callConsistent (stateAfter (handle cap e) st) = true.
Proof.
  intros Hst.
  destruct e as [| | | now message | suggestion action |]; try exact Hst.
  - unfold callConsistent in *. simpl handle.
    dispatch message; try exact Hst; reflexivity.
  - destruct action; exact Hst.
Qed.

(** X2.  In every state the component reaches, the call context is null
    whenever the live flag is off: a context is only ever stored together
    with turning the flag on, and the flag is only turned off together
    with resetting the context. *)
Theorem no_call_context_outside_call :
  forall (cap : Z) (events : list Event),
    callConsistent (stateAfter (run cap events) initialState) = true.
Proof.
  intros cap events.
  apply (run_invariant (fun st => callConsistent st = true)).
  - intros e st _. apply handle_callConsistent.
  - reflexivity.
Qed.

Lemma handle_stampConsistent cap e st :
  stamped e = true ->
  stampConsistent st = true ->
  stampConsistent (stateAfter (handle cap e) st) = true.
Proof.
  intros He Hst.
  destruct e as [| | | now message | suggestion action |]; try exact Hst.
  - simpl in He. simpl handle.
    destruct (isSuggestionMessage message) eqn:Hm.
    + rewrite onMessage_appends by assumption.
      unfold stampConsistent. simpl. rewrite He. apply orb_true_r.
    + destruct (onMessage_other_buffer cap now message st Hm) as [Hbuf Hstamp].
      unfold stampConsistent. now rewrite Hbuf, Hstamp.
  - destruct action; [exact Hst |].
    simpl handle. unfold stampConsistent in *. rewrite dismiss_buffer.
    apply orb_true_iff in Hst as [Hempty | Hstamp].
    + apply Nat.eqb_eq, length_zero_iff_nil in Hempty. rewrite Hempty. reflexivity.
    + change (lastUpdate (stateAfter (handleSuggestionAction suggestion dismiss) st))
        with (lastUpdate st).
      rewrite Hstamp. apply orb_true_r.
  - reflexivity.
Qed.

(** X3.  As long as the clock never returns the empty string, a non-empty
    buffer always comes with a non-empty last-update marker: the marker is
    written with every append and is only emptied by clear-all, which
    empties the buffer too. *)
Theorem shown_buffer_is_stamped (cap : Z) (events : list Event) :
  forallb stamped events = true ->
  stampConsistent (stateAfter (run cap events) initialState) = true.
Proof.
  intros Hstamped. rewrite forallb_forall in Hstamped.
  apply (run_invariant (fun st => stampConsistent st = true)).
  - intros e st Hin. apply handle_stampConsistent. now apply Hstamped.
  - reflexivity.
Qed.

Lemma shown_buffer_is_stamped_witness :
  stampConsistent
    (stateAfter
       (run 21 [EvMessage "2024-01-01T00:00:00.000Z" (batchMessage [withId "a"]);
                EvConnect;
                EvClick (withId "b") dismiss])
       initialState) = true.
Proof.
  apply (shown_buffer_is_stamped 21). reflexivity.
Defined.

(** ** How dismissals compose *)

Lemma filter_twice {A : Type} (f : A -> bool) (l : list A) :
  filter f (filter f l) = filter f l.
Proof.
  induction l as [| x l IH]; simpl; [reflexivity |].
  destruct (f x) eqn:Hx; simpl; [rewrite Hx; f_equal |]; exact IH.
Qed.

Lemma filter_swap {A : Type} (f g : A -> bool) (l : list A) :
  filter f (filter g l) = filter g (filter f l).
Proof.
  induction l as [| x l IH]; simpl; [reflexivity |].
  destruct (f x) eqn:Hf, (g x) eqn:Hg; simpl;
    rewrite ?Hf, ?Hg; first [exact IH | f_equal; exact IH].
Qed.

Lemma filter_none_matching (id : string) (l : list AISuggestion) :
  countOffer id l = 0%nat ->
  filter (fun s => negb (String.eqb (offer_id s) id)) l = l.
Proof.
  induction l as [| x l IH]; simpl; [reflexivity |].
  destruct (String.eqb (offer_id x) id); simpl.
  - discriminate.
  - intros Hcount. f_equal. now apply IH.
Qed.

Lemma countOffer_member (s : AISuggestion) (l : list AISuggestion) :
  In s l -> (0 < countOffer (offer_id s) l)%nat.
Proof.
  induction l as [| x l IH]; simpl; [contradiction |].
  intros [-> | Hin].
  - rewrite String.eqb_refl. lia.
  - destruct (String.eqb (offer_id x) (offer_id s)); [lia | now apply IH].
Qed.

Lemma dismiss_state (suggestion : AISuggestion) (st : State) :
  stateAfter (handleSuggestionAction suggestion dismiss) st
  = {| suggestions :=
         filter (fun s => negb (String.eqb (offer_id s) (offer_id suggestion)))
           (suggestions st);
       isConnected := isConnected st;
       lastUpdate := lastUpdate st;
       currentCall := currentCall st;
       isLiveStreaming := isLiveStreaming st;
       connectionStatus := connectionStatus st |}.
Proof. reflexivity. Qed.

(** X4.  Dismissals compose as set deletions do: dismissing the same
    suggestion a second time changes nothing, and two dismissals give the
    same state in either order. *)
Theorem dismiss_idempotent_and_commutes :
  forall (a b : AISuggestion) (st : State),
    let dismissed s := stateAfter (handleSuggestionAction s dismiss) in
    dismissed a (dismissed a st) = dismissed a st /\
    dismissed a (dismissed b st) = dismissed b (dismissed a st).
Proof.
  intros a b st dismissed. unfold dismissed.
  rewrite !dismiss_state. simpl. split; f_equal.
  - apply filter_twice.
  - apply filter_swap.
Qed.

(** X5.  Dismissing a suggestion whose offer_id no buffer entry carries
    (one already dismissed, or evicted by the trim since it was rendered)
    leaves the whole state as it is. *)
Theorem dismiss_absent_changes_nothing (suggestion : AISuggestion) (st : State) :
  countOffer (offer_id suggestion) (suggestions st) = 0%nat ->
  stateAfter (handleSuggestionAction suggestion dismiss) st = st.
Proof.
  intros Hcount. rewrite dismiss_state, filter_none_matching by assumption.
  apply state_eta.
Qed.

Lemma dismiss_absent_changes_nothing_witness :
  stateAfter (handleSuggestionAction (withId "z") dismiss)
    (bufferState [withId "a"; withId "b"])
  = bufferState [withId "a"; withId "b"].
Proof.
  apply (dismiss_absent_changes_nothing (withId "z")). reflexivity.
Defined.

Lemma dismiss_member_shorter (suggestion : AISuggestion) (st : State) :
  In suggestion (suggestions st) ->
  (List.length (suggestions (stateAfter (handleSuggestionAction suggestion dismiss) st))
   < List.length (suggestions st))%nat.
Proof.
  intros Hin. rewrite dismiss_buffer.
  pose proof (filter_countOffer (offer_id suggestion) (suggestions st)).
  pose proof (countOffer_member suggestion (suggestions st) Hin).
  lia.
Qed.

(** X6.  Dismissing a suggestion that is in the buffer always makes the
    buffer strictly shorter, so the dismiss button of a card on screen
    never leaves the list as it was. *)
Theorem dismiss_present_shrinks (suggestion : AISuggestion) (st : State) :
  In suggestion (suggestions st) ->
  (List.length (suggestions (stateAfter (handleSuggestionAction suggestion dismiss) st))
   < List.length (suggestions st))%nat.
Proof.
  apply dismiss_member_shorter.
Qed.

Lemma dismiss_present_shrinks_witness :
  (List.length
     (suggestions
        (stateAfter (handleSuggestionAction (withId "a") dismiss)
           (bufferState [withId "a"; withId "b"])))
   < List.length (suggestions (bufferState [withId "a"; withId "b"])))%nat.
Proof.
  apply (dismiss_present_shrinks (withId "a")). left. reflexivity.
Defined.

(** ** How appends compose *)

Lemma slice_length {A : Type} (start : Z) (l : list A) :
  Z.of_nat (List.length (slice start l))
  = let len := Z.of_nat (List.length l) in
    if start <? 0 then Z.min len (- start) else Z.max (len - start) 0.
Proof.
  unfold slice. rewrite length_skipn. cbv zeta.
  destruct (Z.ltb_spec start 0); lia.
Qed.

Lemma slice_suffix {A : Type} (start : Z) (l : list A) :
  exists dropped, l = dropped ++ slice start l.
Proof.
  unfold slice. eexists. symmetry. apply firstn_skipn.
Qed.

(** X7.  The length of the buffer after an append, for every integer cap:
    with a cap of at least one it is the smaller of the cap and the
    combined length; with a cap of zero it is the combined length, nothing
    being evicted; with a negative cap the [-cap] oldest entries of the
    combined list are dropped each time. *)
Theorem appendTrim_length :
  forall (cap : Z) (batch prev : list AISuggestion),
    let combined := Z.of_nat (List.length prev) + Z.of_nat (List.length batch) in
    Z.of_nat (List.length (appendTrim cap batch prev))
    = if 0 <? cap then Z.min cap combined
      else if cap =? 0 then combined
      else Z.max (combined + cap) 0.
Proof.
  intros cap batch prev combined. unfold appendTrim.
  rewrite slice_length, length_app. cbv zeta.
  destruct (Z.ltb_spec (- cap) 0), (Z.ltb_spec 0 cap), (Z.eqb_spec cap 0);
    unfold combined; lia.
Qed.

(** X8.  With a cap that is not negative, how the server cuts its
    suggestions into messages does not matter: two suggestion messages in a
    row leave the state that one message carrying both batches, processed
    at the time of the second, leaves. *)
Theorem batches_compose
    (cap : Z) (now1 now2 : string) (batch1 batch2 : list AISuggestion) (st : State) :
  0 <= cap ->
  stateAfter (onMessage cap now2 (batchMessage batch2))
    (stateAfter (onMessage cap now1 (batchMessage batch1)) st)
  = stateAfter (onMessage cap now2 (batchMessage (batch1 ++ batch2))) st.
Proof.
  intros Hcap. rewrite !onMessage_appends by reflexivity.
  unfold afterAppend. simpl. f_equal.
  destruct (Z.eq_dec cap 0) as [-> | Hne].
  - unfold appendTrim. rewrite !slice_neg_zero. now rewrite app_assoc.
  - rewrite !appendTrim_window by lia.
    rewrite mostRecent_absorb. now rewrite app_assoc.
Qed.

Lemma batches_compose_witness :
  stateAfter (onMessage 2 "t2" (batchMessage [withId "c"; withId "d"]))
    (stateAfter (onMessage 2 "t1" (batchMessage [withId "a"; withId "b"]))
       initialState)
  = stateAfter
      (onMessage 2 "t2" (batchMessage ([withId "a"; withId "b"] ++ [withId "c"; withId "d"])))
      initialState.
Proof.
  apply (batches_compose 2 "t1" "t2"). lia.
Defined.

(** X9.  A batch at least as long as a positive cap replaces the buffer:
    whatever was shown before, the buffer becomes the last
    [maxSuggestions] items of that batch. *)
Theorem full_batch_replaces_buffer
    (cap : Z) (now : string) (batch : list AISuggestion) (st : State) :
  1 <= cap -> cap <= Z.of_nat (List.length batch) ->
  suggestions (stateAfter (onMessage cap now (batchMessage batch)) st)
  = mostRecent (Z.to_nat cap) batch.
Proof.
  intros Hcap Hfull. rewrite onMessage_appends by reflexivity. simpl.
  rewrite appendTrim_window by assumption.
  rewrite !mostRecent_skipn, length_app, skipn_app.
  rewrite skipn_all2 by lia. simpl. f_equal. lia.
Qed.

Lemma full_batch_replaces_buffer_witness :
  suggestions
    (stateAfter (onMessage 2 "t1" (batchMessage [withId "c"; withId "d"; withId "e"]))
       (bufferState [withId "a"; withId "b"]))
  = mostRecent (Z.to_nat 2) [withId "c"; withId "d"; withId "e"].
Proof.
  apply (full_batch_replaces_buffer 2 "t1"); simpl; lia.
Defined.

Lemma handle_buffer_origin cap e st :
  incl (suggestions (stateAfter (handle cap e) st)) (suggestions st ++ payloadOf e).
Proof.
  destruct e as [| | | now message | suggestion action |];
    try (simpl; rewrite app_nil_r; apply incl_refl).
  - simpl handle. simpl payloadOf.
    destruct (isSuggestionMessage message) eqn:Hm.
    + rewrite onMessage_appends by assumption. simpl. unfold appendTrim.
      destruct (slice_suffix (- cap)
                  (suggestions st ++ orEmpty (msg_suggestions message)))
        as [dropped Hsplit].
      rewrite Hsplit at 2. apply incl_appr, incl_refl.
    + destruct (onMessage_other_buffer cap now message st Hm) as [-> _].
      rewrite app_nil_r. apply incl_refl.
  - destruct action; simpl payloadOf; rewrite app_nil_r.
    + apply incl_refl.
    + simpl handle. rewrite dismiss_buffer. apply incl_filter.
  - simpl. intros x [].
Qed.

Lemma run_buffer_origin cap events st :
  incl (suggestions (stateAfter (run cap events) st))
    (suggestions st ++ flat_map payloadOf events).
Proof.
  revert st. induction events as [| e rest IH]; intros st.
  - simpl. rewrite app_nil_r. apply incl_refl.
  - rewrite run_cons. simpl flat_map. rewrite app_assoc.
    eapply incl_tran; [apply IH |].
    apply incl_app; [apply incl_appl, handle_buffer_origin | apply incl_appr, incl_refl].
Qed.

(** X10.  Whatever the cap and whatever happens, every suggestion in the
    buffer is one that arrived in the payload of a suggestion message: no
    handler makes up or alters an entry. *)
Theorem buffer_entries_were_received :
  forall (cap : Z) (events : list Event),
    incl (suggestions (stateAfter (run cap events) initialState))
      (flat_map payloadOf events).
Proof.
  intros cap events. apply (run_buffer_origin cap events initialState).
Qed.

(** ** What the handlers emit *)

Lemma run_output_cons cap e rest st :
  outputOf (run cap (e :: rest)) st
  = outputOf (handle cap e) st ++ outputOf (run cap rest) (stateAfter (handle cap e) st).
Proof. simpl run. apply outputOf_seq. Qed.

Lemma handle_output_local cap e st :
  forallb isLocalEffect (outputOf (handle cap e) st) = true.
Proof.
  destruct e as [| | | now message | suggestion action |]; try reflexivity.
  - simpl handle. dispatch message; reflexivity.
  - destruct action; reflexivity.
Qed.

Lemma handle_output_timers cap e st :
  List.length (filter isTimer (outputOf (handle cap e) st))
  = if isSuggestionEvent e then 1%nat else 0%nat.
Proof.
  destruct e as [| | | now message | suggestion action |]; try reflexivity.
  - simpl handle. unfold isSuggestionEvent, isSuggestionMessage, carriesBatch.
    dispatch message; reflexivity.
  - destruct action; reflexivity.
Qed.

(** X11.  The handlers are receive-only and local: over any run of
    events, everything they emit is a console line or the 150 ms scroll
    timer.  Nothing is ever sent on the transport and no handler
    disconnects it. *)
Theorem handlers_only_log_and_scroll :
  forall (cap : Z) (events : list Event) (st : State),
    forallb isLocalEffect (outputOf (run cap events) st) = true.
Proof.
  intros cap events. induction events as [| e rest IH]; intros st.
  - reflexivity.
  - rewrite run_output_cons, forallb_app, handle_output_local. apply IH.
Qed.

(** X12.  The delayed scroll is armed once for every message that
    reaches an appending branch, an empty batch included, and by nothing
    else: the number of timers a run arms is the number of suggestion
    messages in it. *)
Theorem one_timer_per_suggestion_message :
  forall (cap : Z) (events : list Event) (st : State),
    List.length (filter isTimer (outputOf (run cap events) st))
    = List.length (filter isSuggestionEvent events).
Proof.
  intros cap events. induction events as [| e rest IH]; intros st.
  - reflexivity.
  - rewrite run_output_cons, filter_app, length_app, handle_output_timers, IH.
    simpl. now destruct (isSuggestionEvent e).
Qed.

(** ** Independence of connection and content *)

Lemma transport_contentCells cap e st :
  isTransportEvent e = true ->
  contentCells (stateAfter (handle cap e) st) = contentCells st.
Proof.
  destruct e; try discriminate; reflexivity.
Qed.

Lemma transport_connectionCells cap e st1 st2 :
  isTransportEvent e = true ->
  connectionCells st1 = connectionCells st2 ->
  connectionCells (stateAfter (handle cap e) st1)
  = connectionCells (stateAfter (handle cap e) st2).
Proof.
  unfold connectionCells. intros He Heq. injection Heq as Hflag Hstatus.
  destruct e; try discriminate; unfold stateAfter; simpl; congruence.
Qed.

Lemma other_connectionCells cap e st :
  isTransportEvent e = false ->
  connectionCells (stateAfter (handle cap e) st) = connectionCells st.
Proof.
  destruct e as [| | | now message | suggestion action |]; try discriminate; intros _.
  - apply onMessage_connectionCells.
  - destruct action; reflexivity.
  - reflexivity.
Qed.

Lemma other_contentCells cap e st1 st2 :
  isTransportEvent e = false ->
  contentCells st1 = contentCells st2 ->
  contentCells (stateAfter (handle cap e) st1)
  = contentCells (stateAfter (handle cap e) st2).
Proof.
  unfold contentCells. intros He Heq.
  injection Heq as Hbuffer Hstamp Hcall Hlive.
  destruct e as [| | | now message | suggestion action |]; try discriminate.
  - simpl handle. dispatch message; congruence.
  - destruct action; unfold stateAfter; simpl; congruence.
  - unfold stateAfter; simpl; congruence.
Qed.

Lemma run_connectionCells cap events st1 st2 :
  connectionCells st1 = connectionCells st2 ->
  connectionCells (stateAfter (run cap events) st1)
  = connectionCells (stateAfter (run cap (filter isTransportEvent events)) st2).
Proof.
  revert st1 st2. induction events as [| e rest IH]; intros st1 st2 Heq.
  - exact Heq.
  - rewrite run_cons. simpl filter.
    destruct (isTransportEvent e) eqn:He.
    + rewrite run_cons. apply IH. now apply transport_connectionCells.
    + apply IH. now rewrite other_connectionCells.
Qed.

Lemma run_contentCells cap events st1 st2 :
  contentCells st1 = contentCells st2 ->
  contentCells (stateAfter (run cap events) st1)
  = contentCells
      (stateAfter (run cap (filter (fun e => negb (isTransportEvent e)) events)) st2).
Proof.
  revert st1 st2. induction events as [| e rest IH]; intros st1 st2 Heq.
  - exact Heq.
  - rewrite run_cons. simpl filter.
    destruct (isTransportEvent e) eqn:He; cbn [negb].
    + apply IH. now rewrite transport_contentCells.
    + rewrite (run_cons cap e). apply IH. now apply other_contentCells.
Qed.

(** X13.  Connection and content do not influence each other.  After any
    run, the connected flag and the status are what the transport
    callbacks of the run alone would have left, and the buffer, the
    marker, the call context and the live flag are what the messages and
    clicks alone would have left: a dropped connection does not clear
    the suggestions or end the live indication, and no message changes the
    connection badge. *)
Theorem connection_and_content_independent :
  forall (cap : Z) (events : list Event) (st : State),
    connectionCells (stateAfter (run cap events) st)
    = connectionCells (stateAfter (run cap (filter isTransportEvent events)) st) /\
    contentCells (stateAfter (run cap events) st)
    = contentCells
        (stateAfter (run cap (filter (fun e => negb (isTransportEvent e)) events)) st).
Proof.
  intros cap events st. split.
  - now apply run_connectionCells.
  - now apply run_contentCells.
Qed.

(** ** Presentation *)

(** X14.  The status label identifies the status, the four labels being
    different; the colour does not, disconnected and error sharing one.
    The dot and the label, computed on separate paths, always group the
    statuses the same way. *)
Theorem status_badge_consistent :
  forall s1 s2 : ConnectionStatus,
    (getConnectionStatusText s1 = getConnectionStatusText s2 <-> s1 = s2) /\
    (statusDotClass s1 = statusDotClass s2
     <-> getConnectionStatusColor s1 = getConnectionStatusColor s2) /\
    getConnectionStatusColor Disconnected = getConnectionStatusColor Error.
Proof.
  intros s1 s2.
  destruct s1, s2; simpl; repeat split; intros H;
    solve [reflexivity | discriminate H].
Qed.

(** X15.  A suggestion type gets the fallback label SUGGEST exactly when
    it is none of the six types the switch names (the comparison is exact,
    so a different spelling or case falls back too), and the six named
    types get six different labels. *)
Theorem type_label_default_and_distinct :
  forall t1 t2 : string,
    (getSuggestionTypeLabel t1 = "SUGGEST" <-> ~ In t1 knownTypes) /\
    (In t1 knownTypes ->
     getSuggestionTypeLabel t1 = getSuggestionTypeLabel t2 -> t1 = t2).
Proof.
  intros t1 t2. split; [split |].
  - unfold getSuggestionTypeLabel, knownTypes.
    repeat match goal with
           | |- context [String.eqb t1 ?lit] =>
               destruct (String.eqb_spec t1 lit) as [-> | ?]; [discriminate |]
           end.
    intros _ Hin. simpl in Hin. intuition congruence.
  - intros Hnot. unfold getSuggestionTypeLabel.
    repeat match goal with
           | |- context [String.eqb t1 ?lit] =>
               destruct (String.eqb_spec t1 lit) as [-> | ?];
               [exfalso; apply Hnot; simpl; tauto |]
           end.
    reflexivity.
  - intros Hin. simpl in Hin.
    repeat destruct Hin as [<- | Hin]; try contradiction;
      unfold getSuggestionTypeLabel; simpl;
      repeat match goal with
             | |- context [String.eqb t2 ?lit] =>
                 destruct (String.eqb_spec t2 lit) as [-> | ?];
                 [first [reflexivity | discriminate] |]
             end;
      discriminate.
Qed.

(** *** Keys *)

Lemma list_ascii_of_append (s1 s2 : string) :
  list_ascii_of_string (s1 ++ s2)%string
  = list_ascii_of_string s1 ++ list_ascii_of_string s2.
Proof.
  induction s1 as [| c s1 IH]; simpl; [reflexivity | now rewrite IH].
Qed.

Lemma digits_no_dash (d : Decimal.uint) :
  ~ In "-"%char (list_ascii_of_string (NilEmpty.string_of_uint d)).
Proof.
  induction d; simpl; intros H; try contradiction;
    destruct H as [H | H]; try discriminate H; now apply IHd.
Qed.

Lemma to_uint_not_Nil (n : nat) : Nat.to_uint n <> Decimal.Nil.
Proof.
  intros H. pose proof (Unsigned.of_to n) as Hn.
  rewrite H in Hn. simpl in Hn. subst n. discriminate H.
Qed.

Lemma decimal_no_dash (n : nat) :
  ~ In "-"%char (list_ascii_of_string (decimal n)).
Proof.
  unfold decimal, NilZero.string_of_uint.
  pose proof (to_uint_not_Nil n) as Hnil.
  destruct (Nat.to_uint n) eqn:Hd; try contradiction;
    rewrite <- Hd; apply digits_no_dash.
Qed.

Lemma decimal_inj (n m : nat) : decimal n = decimal m -> n = m.
Proof.
  unfold decimal. intros Heq.
  apply Unsigned.to_uint_inj.
  pose proof (NilZero.usu (Nat.to_uint n) (to_uint_not_Nil n)) as Hn.
  pose proof (NilZero.usu (Nat.to_uint m) (to_uint_not_Nil m)) as Hm.
  rewrite Heq in Hn. rewrite Hn in Hm. now injection Hm.
Qed.

(** Two texts [a - d] whose [d] parts hold no dash split at the same
    place. *)
Lemma split_at_last_dash (a1 a2 d1 d2 : list ascii) :
  ~ In "-"%char d1 -> ~ In "-"%char d2 ->
  a1 ++ "-"%char :: d1 = a2 ++ "-"%char :: d2 ->
  d1 = d2.
Proof.
  intros H1 H2. revert a2.
  induction a1 as [| c a1 IH]; intros [| c2 a2] Heq; simpl in Heq.
  - now injection Heq.
  - injection Heq as _ Hd. exfalso. apply H1. rewrite Hd.
    apply in_or_app. right. now left.
  - injection Heq as _ Hd. exfalso. apply H2. rewrite <- Hd.
    apply in_or_app. right. now left.
  - injection Heq as _ Htail. now apply (IH a2).
Qed.

Lemma key_shape (a n t : list ascii) :
  a ++ ["-"%char] ++ n ++ ["-"%char] ++ t = (a ++ "-"%char :: n) ++ "-"%char :: t.
Proof.
  rewrite <- app_assoc. reflexivity.
Qed.

(** Equal keys under one stamp carry the same index. *)
Lemma cardKey_index (stamp : string) (s1 s2 : AISuggestion) (i j : nat) :
  cardKey (renderCard stamp s1 i) = cardKey (renderCard stamp s2 j) -> i = j.
Proof.
  cbn [cardKey renderCard]. intros Heq.
  apply (f_equal list_ascii_of_string) in Heq.
  rewrite !list_ascii_of_append in Heq. cbn [list_ascii_of_string] in Heq.
  rewrite !key_shape in Heq. apply app_inv_tail in Heq.
  apply split_at_last_dash in Heq; try apply decimal_no_dash.
  apply decimal_inj.
  rewrite <- (string_of_list_ascii_of_string (decimal i)),
          <- (string_of_list_ascii_of_string (decimal j)).
  now rewrite Heq.
Qed.

Lemma mapWithIndex_In {A B : Type} (f : A -> nat -> B) (index : nat) (l : list A) (y : B) :
  In y (mapWithIndex f index l) ->
  exists x i, In x l /\ (index <= i)%nat /\ y = f x i.
Proof.
  revert index. induction l as [| x l IH]; intros index; simpl.
  - contradiction.
  - intros [<- | Hin].
    + exists x, index. auto.
    + destruct (IH (S index) Hin) as (x' & i & Hx & Hi & ->).
      exists x', i. repeat split; auto. lia.
Qed.

Lemma mapWithIndex_length {A B : Type} (f : A -> nat -> B) (index : nat) (l : list A) :
  List.length (mapWithIndex f index l) = List.length l.
Proof.
  revert index. induction l as [| x l IH]; intros index; simpl; [reflexivity |].
  now rewrite IH.
Qed.

Lemma keys_NoDup (stamp : string) (index : nat) (l : list AISuggestion) :
  NoDup (map cardKey (mapWithIndex (renderCard stamp) index l)).
Proof.
  revert index. induction l as [| s l IH]; intros index; cbn [mapWithIndex map].
  - constructor.
  - constructor; [| apply IH].
    intros Hin. apply in_map_iff in Hin as (card & Hkey & Hcard).
    apply mapWithIndex_In in Hcard as (s' & i & _ & Hi & ->).
    apply cardKey_index in Hkey. lia.
Qed.

Lemma shownCards_render (showHeader : bool) (st : State) :
  shownCards (render showHeader st)
  = mapWithIndex (renderCard (lastUpdate st)) 0 (suggestions st).
Proof.
  unfold shownCards, render. cbn [viewBody].
  destruct (suggestions st); reflexivity.
Qed.

(** X16.  The keys of the cards on screen are pairwise different in every
    state, also when several buffer entries share an offer_id and whatever
    characters the ids and the marker contain: the position in the list,
    printed between two dashes, tells any two keys apart. *)
Theorem card_keys_distinct :
  forall (showHeader : bool) (st : State),
    NoDup (map cardKey (shownCards (render showHeader st))).
Proof.
  intros showHeader st. rewrite shownCards_render. apply keys_NoDup.
Qed.

(** X17.  Whenever the header offers the Clear button, clicking it leaves
    the panel in its empty state, with the hint that goes with the
    connected flag, and the button is gone. *)
Theorem clear_button_empties_panel
    (cap : Z) (st : State) (h : Header) (click : Event) :
  viewHeader (render true st) = Some h ->
  clearButton h = Some click ->
  let st' := stateAfter (handle cap click) st in
  viewBody (render true st')
  = EmptyState (if isConnected st
                then "AI suggestions will appear here during calls"
                else "Connecting...") /\
  option_map clearButton (viewHeader (render true st')) = Some None.
Proof.
  cbn [render viewHeader]. intros Hh Hclick.
  injection Hh as <-. cbn [clearButton] in Hclick.
  destruct (0 <? List.length (suggestions st))%nat; [| discriminate].
  injection Hclick as <-. split; reflexivity.
Qed.

Lemma clear_button_empties_panel_witness :
  let st := stateAfter
              (run 21 [EvConnect; EvMessage "t0" (batchMessage [withId "a"])])
              initialState in
  viewBody (render true (stateAfter (handle 21 EvClearAll) st))
  = EmptyState "AI suggestions will appear here during calls" /\
  option_map clearButton
    (viewHeader (render true (stateAfter (handle 21 EvClearAll) st)))
  = Some None.
Proof.
  intros st.
  apply (clear_button_empties_panel 21 st
           {| liveBadge := false;
              dotClass := "bg-green-400 animate-pulse";
              statusClass := "text-green-600";
              statusText := "Connected";
              clearButton := Some EvClearAll |}
           EvClearAll); reflexivity.
Defined.

(** X18.  The buttons of a card act on the list it is shown in: the
    dismiss button of any card on screen leaves strictly fewer cards, and
    its use button leaves the whole state, and so the view, as it was. *)
Theorem card_buttons_act_on_view
    (cap : Z) (showHeader : bool) (st : State) (card : Card) :
  In card (shownCards (render showHeader st)) ->
  (List.length
     (shownCards (render showHeader (stateAfter (handle cap (dismissButton card)) st)))
   < List.length (shownCards (render showHeader st)))%nat /\
  stateAfter (handle cap (useButton card)) st = st.
Proof.
  rewrite !shownCards_render, !mapWithIndex_length. intros Hin.
  apply mapWithIndex_In in Hin as (s & i & Hs & _ & ->).
  cbn [dismissButton useButton renderCard handle]. split.
  - now apply dismiss_member_shorter.
  - reflexivity.
Qed.

Lemma card_buttons_act_on_view_witness :
  let st := stateAfter
              (onMessage 21 "t0" (batchMessage [withId "a"; withId "b"; withId "a"]))
              initialState in
  let card := renderCard "t0" (withId "a") 2 in
  (List.length
     (shownCards (render true (stateAfter (handle 21 (dismissButton card)) st)))
   < List.length (shownCards (render true st)))%nat /\
  stateAfter (handle 21 (useButton card)) st = st.
Proof.
  intros st card.
  apply (card_buttons_act_on_view 21 true st card).
  right. right. left. reflexivity.
Defined.

(** X19.  In every state the component reaches, an empty panel under the
    status disconnected or connecting shows the hint Connecting..., and
    under the status connected it shows the hint that suggestions will
    appear: after the connection is lost the hint reads as before the
    first connection. *)
Theorem empty_panel_hint_follows_status (cap : Z) (events : list Event) :
  let st := stateAfter (run cap events) initialState in
  suggestions st = [] ->
  connectionStatus st <> Error ->
  viewBody (render true st)
  = EmptyState (match connectionStatus st with
                | Connected => "AI suggestions will appear here during calls"
                | _ => "Connecting..."
                end).
Proof.
  intros st Hempty Hstatus.
  pose proof (run_connectionConsistent cap events) as Hflag.
  fold st in Hflag. unfold connectionConsistent in Hflag.
  unfold render. cbn [viewBody]. rewrite Hempty. cbn [List.length Nat.eqb].
  destruct (connectionStatus st), (isConnected st);
    try discriminate Hflag; try reflexivity.
  now elim Hstatus.
Qed.

Lemma empty_panel_hint_follows_status_witness :
  viewBody (render true (stateAfter (run 21 [EvConnect; EvDisconnect]) initialState))
  = EmptyState "Connecting...".
Proof.
  apply (empty_panel_hint_follows_status 21 [EvConnect; EvDisconnect]).
  - reflexivity.
  - discriminate.
Defined.

(** ** The cap, for every kind of event *)

Lemma buffer_is_window_positive_cap_witness :
  let events := [EvMessage "t0" (batchMessage [withId "a"; withId "b"]);
                 EvConnect;
                 EvMessage "t1" (batchMessage [withId "c"])] in
  let buffer := suggestions (stateAfter (run 2 events) initialState) in
  Z.of_nat (List.length buffer) <= 2 /\
  buffer = mostRecent (Z.to_nat 2) (flat_map payloadOf events).
Proof.
  intros events.
  apply (buffer_is_window_positive_cap 2 events).
  - lia.
  - repeat constructor.
Defined.

(** X21.  Under a cap of at least one, no sequence of events of any kind
    (messages, transport callbacks, use, dismiss, clear) ever leaves more
    than [maxSuggestions] entries in the buffer. *)
Theorem buffer_never_exceeds_positive_cap (cap : Z) (events : list Event) :
  1 <= cap ->
  Z.of_nat (List.length (suggestions (stateAfter (run cap events) initialState))) <= cap.
Proof.
  intros Hcap.
  apply (run_withinCap cap events initialState Hcap).
  unfold withinCap. simpl. lia.
Qed.

Lemma buffer_never_exceeds_positive_cap_witness :
  Z.of_nat
    (List.length
       (suggestions
          (stateAfter
             (run 1 [EvMessage "t0" (batchMessage [withId "a"; withId "b"]);
                     EvClick (withId "b") dismiss;
                     EvMessage "t1" (batchMessage [withId "c"; withId "d"])])
             initialState))) <= 1.
Proof.
  apply (buffer_never_exceeds_positive_cap 1). lia.
Defined.
